(** * App.tsx: the two reducers, the store and the selection functions

    A shallow embedding of the Redux part of [src/App.tsx]: the action
    objects, [dateReducer], [counterReducer], the store built from them by
    [configureStore], the [mapStateToProps...] selection functions,
    [mapDispatchToProps] and the handlers of [ButtonsRaw].

    Conventions.
    - The [number]s of this program are a counter and a millisecond
      timestamp.  They are modelled by [Z]; the only arithmetic of the
      program, [state.count + 1], is exact in JavaScript on integers of
      magnitude below 2^53, and the model is meant for that range.
      [counterReducer] adds on [Z]; it is the reducer of the store, whose
      count starts at 0 and moves by one.  [counterReducer_double] is the
      same reducer with the addition of IEEE 754 doubles ([Double.add]), for
      what is said of the reducer on every state; the two agree on every
      count from -2^53 up to, not including, 2^53.
    - [null] in [number | null] is [None].
    - An action is the object the store hands to every reducer: it always has
      a [type]; the [payload] property is present or not. *)

From Stdlib Require Import ZArith String List Bool Lia.
From Stdlib Require Import Floats.SpecFloat.
Import ListNotations.

Local Open Scope string_scope.
Local Open Scope Z_scope.

(** ** JavaScript values and exceptions *)

Module Js.

(** The values an [any]-typed parameter can hold, as far as this program
    builds them: objects are property lists in insertion order. *)
#[warning="-register-all"]
Inductive value : Type :=
| Undefined
| Null
| Number (n : Z)
| Str (s : string)
| Object (props : list (string * value)).

(** [o[k]] on an object; [None] is "no such own property". *)
Fixpoint lookup (k : string) (props : list (string * value)) : option value :=
  match props with
  | [] => None
  | (k', v) :: rest => if String.eqb k k' then Some v else lookup k rest
  end.

Definition get (o : value) (k : string) : option value :=
  match o with
  | Object props => lookup k props
  | _ => None
  end.

Definition keys (o : value) : list string :=
  match o with
  | Object props => map fst props
  | _ => []
  end.

(** Number of constructors of a value; a value is strictly larger than each
    of its property values. *)
Fixpoint size (v : value) : nat :=
  match v with
  | Object props =>
      S ((fix sizes (ps : list (string * value)) : nat :=
            match ps with
            | [] => O
            | p :: ps' => (size (snd p) + sizes ps')%nat
            end) props)
  | _ => 1%nat
  end.

(** The one exception this program can raise: reading a property of
    [undefined]. *)
Inductive error : Type :=
| TypeError.

Inductive result (A : Type) : Type :=
| Ok (a : A)
| Throw (e : error).

Arguments Ok {A} a.
Arguments Throw {A} e.

Definition bind {A B : Type} (r : result A) (k : A -> result B) : result B :=
  match r with
  | Ok a => k a
  | Throw e => Throw e
  end.

End Js.

Notation "x <- r ;; k" := (Js.bind r (fun x => k))
  (at level 61, r at next level, right associativity).

(** ** Actions *)

Definition ADD : string := "ADD".
Definition DATE : string := "DATE".

Module Payload.
(** [payload: {date: number}] *)
Record t : Type := mk { date : Z }.
End Payload.

(** An action object as a reducer receives it.  [AddAction] is
    [{type: 'ADD'}], [DateAction] is [{type: 'DATE', payload: {date}}]; the
    store also passes actions of other types (its own initialisation action
    among them). *)
Record Action : Type := mkAction {
  type : string;
  payload : option Payload.t
}.

(** [action.type === DATE] and [action.type === ADD]. *)
Definition isDateAction (a : Action) : bool :=
  String.eqb (type a) DATE.

Definition isAddAction (a : Action) : bool :=
  String.eqb (type a) ADD.

(** What the interface [DateAction] asks of an action object: when the type
    is [DATE] the payload is there. *)
Definition wellTyped (a : Action) : Prop :=
  type a = DATE -> payload a <> None.

(** The objects built by [handleIncrement] and [handleDate]; [now] stands for
    the value [Date.now()] returned at the call. *)
Definition handleIncrement : Action :=
  {| type := ADD; payload := None |}.

Definition handleDate (now : Z) : Action :=
  {| type := DATE; payload := Some (Payload.mk now) |}.

(** [action.payload.date]: a [TypeError] when [action.payload] is
    [undefined]. *)
Definition action_payload_date (action : Action) : Js.result Z :=
  match payload action with
  | Some p => Js.Ok (Payload.date p)
  | None => Js.Throw Js.TypeError
  end.

(** ** Reducer states *)

Record DateState : Type := mkDateState {
  date : option Z
}.

Record CounterState : Type := mkCounterState {
  count : Z
}.

(** [{...state, date: v}] and [{...state, count: v}]: every property of
    [state] is copied and the named one overwritten. *)
Definition with_date (state : DateState) (v : option Z) : DateState :=
  {| date := v |}.

Definition with_count (state : CounterState) (v : Z) : CounterState :=
  {| count := v |}.

(** ** Reducers *)

(** The default parameter values. *)
Definition dateReducer_default : DateState := {| date := None |}.
Definition counterReducer_default : CounterState := {| count := 0 |}.

Definition or_default {A : Type} (d : A) (arg : option A) : A :=
  match arg with
  | Some a => a
  | None => d
  end.

Definition dateReducer (state : option DateState) (action : Action)
  : Js.result DateState :=
  let state := or_default dateReducer_default state in
  if String.eqb (type action) DATE then
    d <- action_payload_date action ;;
    Js.Ok (with_date state (Some d))
  else
    Js.Ok state.

Definition counterReducer (state : option CounterState) (action : Action)
  : CounterState :=
  let state := or_default counterReducer_default state in
  if String.eqb (type action) ADD then
    with_count state (count state + 1)
  else
    state.

(** ** Store *)

Record RootState : Type := mkRootState {
  counter : CounterState;
  dates : DateState
}.

(** The root reducer [configureStore] builds from
    [{counter: counterReducer, dates: dateReducer}]: each slot reducer is
    called, in key order, on its own slot and the same action; an absent root
    state gives every reducer [undefined]. *)
Definition rootReducer (state : option RootState) (action : Action)
  : Js.result RootState :=
  let c := counterReducer (option_map counter state) action in
  d <- dateReducer (option_map dates state) action ;;
  Js.Ok {| counter := c; dates := d |}.

(** The action the store dispatches to itself when it is created; the real
    type string ends in a random suffix, and is neither [ADD] nor [DATE]. *)
Definition INIT : Action :=
  {| type := "@@redux/INIT"; payload := None |}.

Definition configureStore : Js.result RootState :=
  rootReducer None INIT.

(** The state of [store] once created. *)
Definition initialState : RootState :=
  {| counter := counterReducer_default; dates := dateReducer_default |}.

(** [store.dispatch(action)], as the state the store holds afterwards: the
    root reducer's result, or the old state when a reducer threw (the
    exception goes to the caller and the state is not assigned). *)
Definition dispatch (state : RootState) (action : Action) : RootState :=
  match rootReducer (Some state) action with
  | Js.Ok state' => state'
  | Js.Throw _ => state
  end.

(** The date slot after [store.dispatch(action)]: [dispatch] seen from the
    [dates] slot. *)
Definition dates_after (ds : DateState) (a : Action) : DateState :=
  match dateReducer (Some ds) a with
  | Js.Ok ds' => ds'
  | Js.Throw _ => ds
  end.

Definition dispatchAll (state : RootState) (actions : list Action)
  : RootState :=
  fold_left dispatch actions state.

(** The states the store can hold. *)
Inductive reachable : RootState -> Prop :=
| reachable_init : reachable initialState
| reachable_dispatch (s : RootState) (a : Action) :
    reachable s -> reachable (dispatch s a).

(** ** Selection functions *)

Definition js_of_CounterState (s : CounterState) : Js.value :=
  Js.Object [("count", Js.Number (count s))].

Definition js_of_DateState (s : DateState) : Js.value :=
  Js.Object [("date", match date s with
                      | Some d => Js.Number d
                      | None => Js.Null
                      end)].

Definition js_of_RootState (s : RootState) : Js.value :=
  Js.Object [("counter", js_of_CounterState (counter s));
             ("dates", js_of_DateState (dates s))].

Definition mapStateToPropsBreaking (_state : Js.value) : Js.value :=
  Js.Object [].

Definition mapStateToPropsNonBlocking2 (state : Js.value) : Js.value :=
  Js.Object [("state", state)].

(** ** What the sequence properties count and look up *)

Definition countAdds (actions : list Action) : Z :=
  Z.of_nat (length (filter isAddAction actions)).

(** The most recently dispatched action that satisfies [p]. *)
Definition mostRecent (p : Action -> bool) (actions : list Action)
  : option Action :=
  find p (rev actions).

(** ** The typed selection functions *)

Module StateProps.
(** What [mapStateToProps] returns: [{count, date}]. *)
Record t : Type := mk { count : Z; date : option Z }.
End StateProps.

Definition mapStateToProps (state : RootState) : StateProps.t :=
  {| StateProps.count := count (counter state);
     StateProps.date := date (dates state) |}.

Module CountProps.
(** What [mapStateToPropsNonBlocking1] returns: [{count}]. *)
Record t : Type := mk { count : Z }.
End CountProps.

(** The parameter is typed [{counter: CounterState}]; the value it is given
    is the state of the store, of which it reads the [counter] slot. *)
Definition mapStateToPropsNonBlocking1 (state : RootState) : CountProps.t :=
  {| CountProps.count := count (counter state) |}.

(** ** Dispatch props and the handlers of [ButtonsRaw] *)

(** [Dispatch<AddAction | DateAction>], as a function on the state the store
    holds. *)
Definition Dispatch : Type := RootState -> Action -> RootState.

Module DispatchProps.
(** What [mapDispatchToProps] returns: [{dispatch}]. *)
Record t : Type := mk { dispatch : Dispatch }.
End DispatchProps.

Definition mapDispatchToProps (dispatch : Dispatch) : DispatchProps.t :=
  {| DispatchProps.dispatch := dispatch |}.

Module ButtonsRaw.

(** [this.props.dispatch({type: ADD})] *)
Definition handleIncrement (props : DispatchProps.t) (store : RootState)
  : RootState :=
  DispatchProps.dispatch props store {| type := ADD; payload := None |}.

(** [this.props.dispatch({type: DATE, payload: {date: Date.now()}})]; [now]
    is the value of [Date.now()] at the call. *)
Definition handleDate (props : DispatchProps.t) (now : Z) (store : RootState)
  : RootState :=
  DispatchProps.dispatch props store
    {| type := DATE; payload := Some (Payload.mk now) |}.

End ButtonsRaw.

(** The two buttons [ButtonsRaw] renders, as the events a user can cause:
    "Update Date" (with the clock value read by its handler) and
    "Increment Counter". *)
Inductive Press : Type :=
| UpdateDate (now : Z)
| IncrementCounter.

(** The [onPress] handler each button is given. *)
Definition onPress (props : DispatchProps.t) (e : Press) (store : RootState)
  : RootState :=
  match e with
  | UpdateDate now => ButtonsRaw.handleDate props now store
  | IncrementCounter => ButtonsRaw.handleIncrement props store
  end.

(** The props of [Buttons = connect(null, mapDispatchToProps)(ButtonsRaw)]:
    [mapDispatchToProps] applied to the store's [dispatch]. *)
Definition Buttons_props : DispatchProps.t :=
  mapDispatchToProps dispatch.

Definition pressAll (store : RootState) (presses : list Press) : RootState :=
  fold_left (fun s e => onPress Buttons_props e s) presses store.

(** ** What the further properties count and look up *)

(** An action on which [dateReducer] reaches its assignment: type [DATE]
    and a payload. *)
Definition setsDate (a : Action) : bool :=
  isDateAction a
  && match payload a with
     | Some _ => true
     | None => false
     end.

(** The two slots, each folded with its own reducer. *)
Definition counter_after (c : CounterState) (a : Action) : CounterState :=
  counterReducer (Some c) a.

Definition isIncrement (e : Press) : bool :=
  match e with
  | IncrementCounter => true
  | UpdateDate _ => false
  end.

Definition incrementPresses (presses : list Press) : Z :=
  Z.of_nat (length (filter isIncrement presses)).

(** The clock value of the most recent "Update Date" press. *)
Definition lastUpdateDate (presses : list Press) : option Z :=
  fold_left (fun acc e => match e with
                          | UpdateDate now => Some now
                          | IncrementCounter => acc
                          end) presses None.

(** ** Addition of [number]s *)

Module Double.

(** Rounding of a non-negative integer to the nearest one with a significand
    of 53 bits, a tie going to the even significand: [sh] low bits are
    dropped, [q] is the significand kept, [r] what is dropped, [half] the
    middle between two neighbours. *)
Definition round_magnitude (a : Z) : Z :=
  let sh := Z.log2 a - 52 in
  if sh <=? 0 then a
  else
    let q := a / 2 ^ sh in
    let r := a mod 2 ^ sh in
    let half := 2 ^ (sh - 1) in
    if (half <? r) || ((r =? half) && Z.odd q) then (q + 1) * 2 ^ sh
    else q * 2 ^ sh.

(** The double nearest to an integer (round to nearest, ties to even). *)
Definition round53 (z : Z) : Z :=
  Z.sgn z * round_magnitude (Z.abs z).

(** The integers that are doubles. *)
Definition representable (z : Z) : Prop :=
  round53 z = z.

(** [x + y] on integer-valued doubles: the exact sum, rounded.  (A sum of
    magnitude 2^1024 or more would be [Infinity]; adding 1 to a double never
    gets there.) *)
Definition add (x y : Z) : Z :=
  round53 (x + y).

(** The same addition through the binary64 operations of [SpecFloat], to
    compare [add] with: an integer as a double, a double with an integer
    value as that integer, and [SFadd] between them. *)
Definition of_Z (z : Z) : spec_float :=
  binary_normalize 53 1024 z 0 false.

Definition to_Z (f : spec_float) : option Z :=
  match f with
  | S754_zero _ => Some 0
  | S754_finite s m e =>
      if 0 <=? e then Some (cond_Zopp s (Z.pos m * 2 ^ e))
      else if Z.pos m mod 2 ^ (- e) =? 0
           then Some (cond_Zopp s (Z.pos m / 2 ^ (- e)))
           else None
  | S754_infinity _ => None
  | S754_nan => None
  end.

Definition SFadd_Z (x y : Z) : option Z :=
  to_Z (SFadd 53 1024 (of_Z x) (of_Z y)).

End Double.

(** [counterReducer] with [state.count + 1] as the addition of doubles. *)
Definition counterReducer_double
  (state : option CounterState) (action : Action) : CounterState :=
  let state := or_default counterReducer_default state in
  if String.eqb (type action) ADD then
    with_count state (Double.add (count state) 1)
  else
    state.

(** The store with [counterReducer_double] in the [counter] slot. *)
Definition rootReducer_double (state : option RootState) (action : Action)
  : Js.result RootState :=
  let c := counterReducer_double (option_map counter state) action in
  d <- dateReducer (option_map dates state) action ;;
  Js.Ok {| counter := c; dates := d |}.

Definition dispatch_double (state : RootState) (action : Action) : RootState :=
  match rootReducer_double (Some state) action with
  | Js.Ok state' => state'
  | Js.Throw _ => state
  end.

Definition dispatchAll_double (state : RootState) (actions : list Action)
  : RootState :=
  fold_left dispatch_double actions state.

(** * Properties *)

(** ** The switch on [action.type] *)

Lemma ADD_neq_DATE : ADD <> DATE.
Proof. discriminate. Qed.

Lemma type_ADD_eqb (a : Action) :
  type a = ADD -> String.eqb (type a) ADD = true.
Proof. intros ->. reflexivity. Qed.

Lemma type_DATE_eqb (a : Action) :
  type a = DATE -> String.eqb (type a) DATE = true.
Proof. intros ->. reflexivity. Qed.

(** ** The reducers, case by case *)

Lemma counterReducer_ADD (s : CounterState) (a : Action) :
  type a = ADD -> counterReducer (Some s) a = {| count := count s + 1 |}.
Proof.
  intros H. unfold counterReducer. now rewrite (type_ADD_eqb a H).
Qed.

Lemma counterReducer_default_branch (s : CounterState) (a : Action) :
  type a <> ADD -> counterReducer (Some s) a = s.
Proof.
  intros H. unfold counterReducer.
  apply String.eqb_neq in H. now rewrite H.
Qed.

Lemma dateReducer_DATE (s : DateState) (a : Action) (p : Payload.t) :
  type a = DATE -> payload a = Some p ->
  dateReducer (Some s) a = Js.Ok {| date := Some (Payload.date p) |}.
Proof.
  intros H Hp. unfold dateReducer, action_payload_date.
  now rewrite (type_DATE_eqb a H), Hp.
Qed.

Lemma dateReducer_DATE_no_payload (s : DateState) (a : Action) :
  type a = DATE -> payload a = None ->
  dateReducer (Some s) a = Js.Throw Js.TypeError.
Proof.
  intros H Hp. unfold dateReducer, action_payload_date.
  now rewrite (type_DATE_eqb a H), Hp.
Qed.

Lemma dateReducer_default_branch (s : DateState) (a : Action) :
  type a <> DATE -> dateReducer (Some s) a = Js.Ok s.
Proof.
  intros H. unfold dateReducer.
  apply String.eqb_neq in H. now rewrite H.
Qed.

Lemma dateReducer_Throw_DATE
  (s : option DateState) (a : Action) (e : Js.error) :
  dateReducer s a = Js.Throw e -> type a = DATE.
Proof.
  unfold dateReducer.
  destruct (String.eqb (type a) DATE) eqn:E; [|discriminate].
  intros _. now apply String.eqb_eq.
Qed.

(** ** The store, slot by slot *)

Lemma dispatch_slots (s : RootState) (a : Action) :
  dispatch s a =
  {| counter := counterReducer (Some (counter s)) a;
     dates := dates_after (dates s) a |}.
Proof.
  unfold dispatch, rootReducer, dates_after. cbn [option_map].
  destruct (dateReducer (Some (dates s)) a) as [ds'|e] eqn:E; cbn.
  - reflexivity.
  - apply dateReducer_Throw_DATE in E.
    rewrite counterReducer_default_branch.
    + now destruct s.
    + rewrite E. intros H. now apply ADD_neq_DATE.
Qed.

Lemma counter_dispatch (s : RootState) (a : Action) :
  counter (dispatch s a) = counterReducer (Some (counter s)) a.
Proof. now rewrite dispatch_slots. Qed.

Lemma dates_dispatch (s : RootState) (a : Action) :
  dates (dispatch s a) = dates_after (dates s) a.
Proof. now rewrite dispatch_slots. Qed.

Lemma dates_after_default_branch (ds : DateState) (a : Action) :
  type a <> DATE -> dates_after ds a = ds.
Proof.
  intros H. unfold dates_after. now rewrite dateReducer_default_branch.
Qed.

Lemma dates_after_DATE (ds : DateState) (a : Action) (p : Payload.t) :
  type a = DATE -> payload a = Some p ->
  dates_after ds a = {| date := Some (Payload.date p) |}.
Proof.
  intros H Hp. unfold dates_after. now rewrite (dateReducer_DATE ds a p H Hp).
Qed.

Lemma configureStore_initialState : configureStore = Js.Ok initialState.
Proof. reflexivity. Qed.

Lemma dispatchAll_snoc (s : RootState) (l : list Action) (a : Action) :
  dispatchAll s (l ++ [a]) = dispatch (dispatchAll s l) a.
Proof. unfold dispatchAll. now rewrite fold_left_app. Qed.

Lemma reachable_dispatchAll (l : list Action) :
  reachable (dispatchAll initialState l).
Proof.
  induction l as [|a l IH] using rev_ind.
  - constructor.
  - rewrite dispatchAll_snoc. now constructor.
Qed.

(** ** Counting *)

Lemma countAdds_cons (a : Action) (l : list Action) :
  countAdds (a :: l) = (if isAddAction a then 1 else 0) + countAdds l.
Proof.
  unfold countAdds. cbn [filter].
  destruct (isAddAction a); cbn [length]; lia.
Qed.

Lemma countAdds_app (l1 l2 : list Action) :
  countAdds (l1 ++ l2) = countAdds l1 + countAdds l2.
Proof.
  unfold countAdds. rewrite filter_app, length_app. lia.
Qed.

Lemma count_counterReducer (c : CounterState) (a : Action) :
  count (counterReducer (Some c) a) =
  count c + (if isAddAction a then 1 else 0).
Proof.
  unfold counterReducer, isAddAction. cbn [or_default].
  destruct (String.eqb (type a) ADD); cbn; lia.
Qed.

Lemma count_dispatchAll (l : list Action) (s : RootState) :
  count (counter (dispatchAll s l)) = count (counter s) + countAdds l.
Proof.
  revert s. induction l as [|a l IH]; intros s.
  - cbn. unfold countAdds. cbn. lia.
  - change (dispatchAll s (a :: l)) with (dispatchAll (dispatch s a) l).
    rewrite IH, counter_dispatch, count_counterReducer, countAdds_cons. lia.
Qed.

(** ** The most recent action of a kind *)

Lemma mostRecent_snoc (p : Action -> bool) (l : list Action) (a : Action) :
  mostRecent p (l ++ [a]) = if p a then Some a else mostRecent p l.
Proof. unfold mostRecent. now rewrite rev_app_distr. Qed.

(** The date slot after a sequence of well-typed actions with a ['DATE']
    action among them. *)
Lemma dates_dispatchAll_last_DATE (l : list Action) (s : RootState) :
  Forall wellTyped l -> existsb isDateAction l = true ->
  exists (a : Action) (p : Payload.t),
    mostRecent isDateAction l = Some a
    /\ payload a = Some p
    /\ date (dates (dispatchAll s l)) = Some (Payload.date p).
Proof.
  induction l as [|a l IH] using rev_ind; intros Hwt Hex.
  - discriminate.
  - apply Forall_app in Hwt as [Hl Ha].
    rewrite mostRecent_snoc, dispatchAll_snoc, dates_dispatch.
    destruct (isDateAction a) eqn:E.
    + apply String.eqb_eq in E.
      apply Forall_inv in Ha. unfold wellTyped in Ha.
      destruct (payload a) as [p|] eqn:Hp; [|now elim (Ha E)].
      exists a, p. rewrite (dates_after_DATE _ a p E Hp). now repeat split.
    + rewrite existsb_app in Hex. cbn in Hex. rewrite E in Hex.
      rewrite !orb_false_r in Hex.
      destruct (IH Hl Hex) as (a' & p & Hm & Hp & Hd).
      exists a', p. apply String.eqb_neq in E.
      rewrite (dates_after_default_branch _ a E). now repeat split.
Qed.

(** ** Objects *)

Lemma value_lt_Object (k : string) (v : Js.value) :
  (Js.size v < Js.size (Js.Object [(k, v)]))%nat.
Proof. cbn [Js.size snd]. lia. Qed.

(** ** Doubles *)

Lemma sgn_mul_abs (z : Z) : Z.sgn z * Z.abs z = z.
Proof. destruct z; reflexivity. Qed.

Lemma round_magnitude_small (a : Z) :
  0 <= a < 2 ^ 53 -> Double.round_magnitude a = a.
Proof.
  intros [H0 H]. unfold Double.round_magnitude.
  assert (Z.log2 a < 53).
  { destruct (Z.eq_dec a 0) as [->|Hn]; [reflexivity|].
    apply Z.log2_lt_pow2; lia. }
  destruct (Z.leb_spec (Z.log2 a - 52) 0); [reflexivity|lia].
Qed.

Lemma round53_small (z : Z) : Z.abs z < 2 ^ 53 -> Double.round53 z = z.
Proof.
  intros H. unfold Double.round53. rewrite round_magnitude_small.
  - apply sgn_mul_abs.
  - split; [apply Z.abs_nonneg|exact H].
Qed.

(** A magnitude with a significand of 53 bits is kept. *)
Lemma round_magnitude_fixed (q sh : Z) :
  0 <= sh -> 2 ^ 52 <= q <= 2 ^ 53 ->
  Double.round_magnitude (q * 2 ^ sh) = q * 2 ^ sh.
Proof.
  intros Hsh [Hlo Hhi].
  assert (HP : 0 < 2 ^ sh) by (apply Z.pow_pos_nonneg; lia).
  destruct (Z.eq_dec q (2 ^ 53)) as [->|Hq].
  - rewrite <- Z.pow_add_r by lia.
    unfold Double.round_magnitude. rewrite Z.log2_pow2 by lia.
    destruct (Z.leb_spec (53 + sh - 52) 0); [lia|].
    replace (53 + sh - 52) with (sh + 1) by lia.
    replace (53 + sh) with (52 + (sh + 1)) by lia.
    rewrite (Z.pow_add_r 2 52 (sh + 1)) by lia.
    assert (0 < 2 ^ (sh + 1)) by (apply Z.pow_pos_nonneg; lia).
    rewrite Z.div_mul, Z.mod_mul by lia.
    replace (sh + 1 - 1) with sh by lia.
    destruct (Z.ltb_spec (2 ^ sh) 0); [lia|].
    destruct (Z.eqb_spec 0 (2 ^ sh)); [lia|]. reflexivity.
  - assert (Hlog : Z.log2 (q * 2 ^ sh) = 52 + sh).
    { apply Z.log2_unique; [lia|].
      replace (Z.succ (52 + sh)) with (53 + sh) by lia.
      rewrite (Z.pow_add_r 2 52 sh), (Z.pow_add_r 2 53 sh) by lia. nia. }
    unfold Double.round_magnitude. rewrite Hlog.
    replace (52 + sh - 52) with sh by lia.
    destruct (Z.leb_spec sh 0); [reflexivity|].
    rewrite Z.div_mul, Z.mod_mul by lia.
    assert (0 < 2 ^ (sh - 1)) by (apply Z.pow_pos_nonneg; lia).
    destruct (Z.ltb_spec (2 ^ (sh - 1)) 0); [lia|].
    destruct (Z.eqb_spec 0 (2 ^ (sh - 1))); [lia|]. reflexivity.
Qed.

(** What rounding a magnitude of 2^53 or more gives. *)
Lemma round_magnitude_large (a : Z) :
  2 ^ 53 <= a ->
  exists q sh, 0 < sh /\ 2 ^ 52 <= q <= 2 ^ 53
               /\ Double.round_magnitude a = q * 2 ^ sh.
Proof.
  intros H.
  assert (Ha : 0 < a) by (pose proof (Z.pow_pos_nonneg 2 53); lia).
  assert (He : 53 <= Z.log2 a) by (apply Z.log2_le_pow2; lia).
  destruct (Z.log2_spec a Ha) as [Hlo Hhi].
  set (sh := Z.log2 a - 52).
  assert (HP : 0 < 2 ^ sh) by (apply Z.pow_pos_nonneg; lia).
  assert (E1 : 2 ^ Z.log2 a = 2 ^ 52 * 2 ^ sh).
  { rewrite <- Z.pow_add_r by lia. f_equal. lia. }
  assert (E2 : 2 ^ Z.succ (Z.log2 a) = 2 ^ 53 * 2 ^ sh).
  { rewrite <- Z.pow_add_r by lia. f_equal. lia. }
  assert (Hq : 2 ^ 52 <= a / 2 ^ sh < 2 ^ 53).
  { split.
    - apply Z.div_le_lower_bound; lia.
    - apply Z.div_lt_upper_bound; lia. }
  unfold Double.round_magnitude. fold sh.
  destruct (Z.leb_spec sh 0); [lia|].
  destruct ((2 ^ (sh - 1) <? a mod 2 ^ sh)
            || (a mod 2 ^ sh =? 2 ^ (sh - 1)) && Z.odd (a / 2 ^ sh)).
  - exists (a / 2 ^ sh + 1), sh. repeat split; lia.
  - exists (a / 2 ^ sh), sh. repeat split; lia.
Qed.

Lemma round_magnitude_idempotent (a : Z) :
  0 <= a ->
  Double.round_magnitude (Double.round_magnitude a)
  = Double.round_magnitude a.
Proof.
  intros H0. destruct (Z.lt_ge_cases a (2 ^ 53)) as [H|H].
  - rewrite (round_magnitude_small a) by lia.
    apply round_magnitude_small; lia.
  - destruct (round_magnitude_large a H) as (q & sh & Hsh & Hq & ->).
    apply round_magnitude_fixed; lia.
Qed.

Lemma round_magnitude_pos (a : Z) : 0 < a -> 0 < Double.round_magnitude a.
Proof.
  intros H0. destruct (Z.lt_ge_cases a (2 ^ 53)) as [H|H].
  - rewrite round_magnitude_small; lia.
  - destruct (round_magnitude_large a H) as (q & sh & Hsh & Hq & ->).
    assert (0 < 2 ^ sh) by (apply Z.pow_pos_nonneg; lia).
    pose proof (Z.pow_pos_nonneg 2 52). nia.
Qed.

(** Rounding gives a double. *)
Lemma round53_idempotent (z : Z) :
  Double.round53 (Double.round53 z) = Double.round53 z.
Proof.
  unfold Double.round53. destruct z as [|p|p]; [reflexivity| |].
  - cbn [Z.sgn Z.abs].
    pose proof (round_magnitude_pos (Z.pos p) eq_refl) as H.
    rewrite Z.mul_1_l.
    destruct (Double.round_magnitude (Z.pos p)) as [|r|r] eqn:E; try lia.
    cbn [Z.sgn Z.abs]. rewrite Z.mul_1_l, <- E.
    rewrite round_magnitude_idempotent; lia.
  - cbn [Z.sgn Z.abs].
    pose proof (round_magnitude_pos (Z.pos p) eq_refl) as H.
    destruct (Double.round_magnitude (Z.pos p)) as [|r|r] eqn:E; try lia.
    cbn [Z.sgn Z.abs Z.mul Pos.mul]. rewrite <- E.
    rewrite round_magnitude_idempotent by lia. rewrite E. reflexivity.
Qed.

Lemma representable_add (x y : Z) : Double.representable (Double.add x y).
Proof. apply round53_idempotent. Qed.

(** From 2^53 on the doubles are even. *)
Lemma representable_large_even (z : Z) :
  Double.representable z -> 2 ^ 53 <= Z.abs z -> Z.even z = true.
Proof.
  unfold Double.representable, Double.round53. intros E H.
  destruct (round_magnitude_large _ H) as (q & sh & Hsh & Hq & Hr).
  rewrite Hr in E. rewrite <- E.
  replace sh with (1 + (sh - 1)) by lia.
  rewrite Z.pow_add_r by lia.
  replace (Z.sgn z * (q * (2 ^ 1 * 2 ^ (sh - 1))))
    with (2 * (Z.sgn z * q * 2 ^ (sh - 1))) by (change (2 ^ 1) with 2; ring).
  rewrite Z.even_mul. reflexivity.
Qed.

Lemma add_1_exact (n : Z) :
  - 2 ^ 53 <= n < 2 ^ 53 -> Double.add n 1 = n + 1.
Proof.
  intros [Hlo Hhi]. unfold Double.add.
  destruct (Z.eq_dec (n + 1) (2 ^ 53)) as [->|H]; [reflexivity|].
  apply round53_small. lia.
Qed.

(** Outside that range a double plus one is not a double. *)
Lemma add_1_inexact (n : Z) :
  Double.representable n -> 2 ^ 53 <= n \/ n < - 2 ^ 53 ->
  Double.add n 1 <> n + 1.
Proof.
  intros Hn Hout E.
  assert (He : Z.even n = true)
    by (apply representable_large_even; [exact Hn|lia]).
  assert (Hs : Double.representable (n + 1))
    by (rewrite <- E; apply representable_add).
  assert (Ho : Z.even (n + 1) = true)
    by (apply representable_large_even; [exact Hs|lia]).
  rewrite Z.even_add, He in Ho. discriminate.
Qed.

(** [Double.add] and the addition of [SpecFloat] give the same sums around
    the places where the rounding changes. *)
Lemma add_1_as_SFadd :
  Forall (fun x : Z => Double.SFadd_Z x 1 = Some (Double.add x 1))
    [0; 1; -1; -2; 41; 1700000000000;
     2 ^ 53 - 2; 2 ^ 53 - 1; 2 ^ 53; 2 ^ 53 + 2; 2 ^ 53 + 4; 2 ^ 53 + 6;
     2 ^ 54 - 2; 2 ^ 54; 2 ^ 54 + 4; 2 ^ 55 + 8; 2 ^ 100; 2 ^ 1000;
     - 2 ^ 53 + 1; - 2 ^ 53; - 2 ^ 53 - 2; - 2 ^ 53 - 4; - 2 ^ 54;
     - 2 ^ 100].
Proof. repeat constructor. Qed.

(** The two reducers agree where the addition is exact. *)
Lemma counterReducer_double_agrees (s : CounterState) (a : Action) :
  - 2 ^ 53 <= count s < 2 ^ 53 ->
  counterReducer_double (Some s) a = counterReducer (Some s) a.
Proof.
  intros H. unfold counterReducer_double, counterReducer. cbn [or_default].
  destruct (String.eqb (type a) ADD); [|reflexivity].
  now rewrite (add_1_exact (count s) H).
Qed.

Lemma counterReducer_double_default_branch (s : CounterState) (a : Action) :
  type a <> ADD -> counterReducer_double (Some s) a = s.
Proof.
  intros H. unfold counterReducer_double.
  apply String.eqb_neq in H. now rewrite H.
Qed.

Lemma counterReducer_double_ADD (s : CounterState) (a : Action) :
  type a = ADD ->
  counterReducer_double (Some s) a = {| count := Double.add (count s) 1 |}.
Proof.
  intros H. unfold counterReducer_double. now rewrite (type_ADD_eqb a H).
Qed.

(** * The claims *)

(** C1, as the claim words it, fails: at count 2^53 the reducer, on an
    ['ADD'] action, returns the count 2^53 again and not 2^53 + 1. *)
Lemma counterReducer_double_at_2_53 :
  counterReducer_double (Some {| count := 9007199254740992 |}) handleIncrement
  = {| count := 9007199254740992 |}
  /\ count (counterReducer_double (Some {| count := 9007199254740992 |})
              handleIncrement)
     <> 9007199254740992 + 1.
Proof. split; [reflexivity|discriminate]. Qed.

(** C1, amended. For every counter state [s] and every action [a]: when the
    type of [a] is ['ADD'] and [s.count] is an integer from -2^53 up to, not
    including, 2^53, the counter reducer ([counterReducer_double]) returns a
    state whose count is [s.count + 1], and for a count (a double) outside
    that range the count returned is not [s.count + 1]; for every other
    type, known or not, it returns [s] itself whatever the count.  It has no
    error condition: a state whose count is a double is mapped to a state
    whose count is a double, on every action. *)
Theorem counterReducer_double_contract (s : CounterState) (a : Action) :
  (type a = ADD -> - 2 ^ 53 <= count s < 2 ^ 53 ->
   counterReducer_double (Some s) a = {| count := count s + 1 |})
  /\ (type a = ADD -> Double.representable (count s) ->
      (count (counterReducer_double (Some s) a) = count s + 1
       <-> - 2 ^ 53 <= count s < 2 ^ 53))
  /\ (type a <> ADD -> counterReducer_double (Some s) a = s)
  /\ (Double.representable (count s) ->
      Double.representable (count (counterReducer_double (Some s) a))).
Proof.
  split; [|split; [|split]].
  - intros Ht H. rewrite (counterReducer_double_ADD s a Ht).
    now rewrite (add_1_exact (count s) H).
  - intros Ht Hn. rewrite (counterReducer_double_ADD s a Ht). cbn [count].
    split.
    + intros E.
      destruct (Z.lt_ge_cases (count s) (2 ^ 53)) as [H1|H1];
        [destruct (Z.le_gt_cases (- 2 ^ 53) (count s)) as [H2|H2]; [lia|]|];
        exfalso; apply (add_1_inexact (count s) Hn); solve [lia | exact E].
    + apply add_1_exact.
  - apply counterReducer_double_default_branch.
  - intros Hn. unfold counterReducer_double. cbn [or_default].
    destruct (String.eqb (type a) ADD); [|exact Hn].
    apply representable_add.
Qed.

Lemma counterReducer_double_contract_witness :
  counterReducer_double (Some {| count := 41 |}) handleIncrement
  = {| count := 42 |}
  /\ counterReducer_double (Some {| count := 9007199254740992 |}) (handleDate 7)
     = {| count := 9007199254740992 |}
  /\ Double.representable
       (count (counterReducer_double (Some {| count := 9007199254740992 |})
                 handleIncrement)).
Proof.
  split; [|split].
  - apply (proj1 (counterReducer_double_contract {| count := 41 |}
                    handleIncrement)).
    + reflexivity.
    + cbn. lia.
  - apply (proj1 (proj2 (proj2 (counterReducer_double_contract
                                  {| count := 9007199254740992 |}
                                  (handleDate 7))))).
    discriminate.
  - apply (proj2 (proj2 (proj2 (counterReducer_double_contract
                                  {| count := 9007199254740992 |}
                                  handleIncrement)))).
    reflexivity.
Defined.

(** C2. For every date state [s] and every action [a], [dateReducer] returns
    a state whose [date] is the payload's [date] when the type of [a] is
    ['DATE'], and returns [s] itself for every other type.  The payload value
    is not validated: whatever number it carries is stored. *)
Theorem dateReducer_contract (s : DateState) (a : Action) :
  (forall p : Payload.t,
     type a = DATE -> payload a = Some p ->
     dateReducer (Some s) a = Js.Ok {| date := Some (Payload.date p) |})
  /\ (type a <> DATE -> dateReducer (Some s) a = Js.Ok s)
  /\ (forall d : Z,
        dateReducer (Some s) (handleDate d) = Js.Ok {| date := Some d |}).
Proof.
  split; [|split].
  - intros p. apply dateReducer_DATE.
  - apply dateReducer_default_branch.
  - intros d. reflexivity.
Qed.

Lemma dateReducer_contract_witness :
  dateReducer (Some {| date := Some 5 |}) (handleDate (-1))
    = Js.Ok {| date := Some (-1) |}
  /\ dateReducer (Some {| date := Some 5 |}) handleIncrement
    = Js.Ok {| date := Some 5 |}.
Proof.
  split.
  - apply (proj1 (dateReducer_contract {| date := Some 5 |} (handleDate (-1)))
             (Payload.mk (-1))); reflexivity.
  - apply (proj1 (proj2 (dateReducer_contract {| date := Some 5 |} handleIncrement))).
    discriminate.
Defined.

(** C3. Starting from the state the store is created with (count 0), after
    any sequence of dispatched actions the counter slot's count is the number
    of ['ADD'] actions in the sequence; an action of another type anywhere in
    the sequence does not change it.  Three increments from the initial state
    give count 3 and leave the date slot [null]. *)
Theorem count_is_number_of_adds :
  configureStore = Js.Ok initialState
  /\ count (counter initialState) = 0
  /\ (forall l : list Action,
        count (counter (dispatchAll initialState l)) = countAdds l)
  /\ (forall (l1 l2 : list Action) (a : Action),
        isAddAction a = false ->
        count (counter (dispatchAll initialState (l1 ++ a :: l2)))
        = count (counter (dispatchAll initialState (l1 ++ l2))))
  /\ dispatchAll initialState [handleIncrement; handleIncrement; handleIncrement]
     = {| counter := {| count := 3 |}; dates := {| date := None |} |}.
Proof.
  split; [reflexivity|]. split; [reflexivity|]. split; [|split].
  - intros l. now rewrite count_dispatchAll.
  - intros l1 l2 a H.
    rewrite !count_dispatchAll, !countAdds_app, countAdds_cons, H. lia.
  - reflexivity.
Qed.

Lemma count_is_number_of_adds_witness :
  count (counter (dispatchAll initialState
                    [handleIncrement; handleDate 9; INIT; handleIncrement]))
  = count (counter (dispatchAll initialState
                      [handleIncrement; handleDate 9; handleIncrement])).
Proof.
  apply (proj1 (proj2 (proj2 (proj2 count_is_number_of_adds)))
           [handleIncrement; handleDate 9] [handleIncrement] INIT).
  reflexivity.
Defined.

(** C4. After any sequence of dispatched actions (each a well-typed action
    object) that contains at least one ['DATE'] action, the date slot holds
    the payload date of the most recently dispatched ['DATE'] action; an
    ['ADD'] action leaves the date slot as it was; dispatching the set-date
    action with value 1700000000000 leaves the date slot reading exactly
    1700000000000. *)
Theorem date_is_most_recent_payload :
  (forall (s : RootState) (l : list Action),
     Forall wellTyped l -> existsb isDateAction l = true ->
     exists (a : Action) (p : Payload.t),
       mostRecent isDateAction l = Some a
       /\ payload a = Some p
       /\ date (dates (dispatchAll s l)) = Some (Payload.date p))
  /\ (forall (s : RootState) (a : Action),
        type a = ADD -> dates (dispatch s a) = dates s)
  /\ (forall s : RootState,
        date (dates (dispatch s (handleDate 1700000000000)))
        = Some 1700000000000).
Proof.
  split; [|split].
  - intros s l. apply dates_dispatchAll_last_DATE.
  - intros s a H. rewrite dates_dispatch.
    apply dates_after_default_branch. rewrite H. apply ADD_neq_DATE.
  - intros s. now rewrite dates_dispatch.
Qed.

Lemma date_is_most_recent_payload_witness :
  (exists (a : Action) (p : Payload.t),
     mostRecent isDateAction
       [handleDate 10; handleIncrement; handleDate 20; handleIncrement]
     = Some a
     /\ payload a = Some p
     /\ date (dates (dispatchAll initialState
                       [handleDate 10; handleIncrement; handleDate 20;
                        handleIncrement]))
        = Some (Payload.date p))
  /\ dates (dispatch (dispatch initialState (handleDate 10)) handleIncrement)
     = dates (dispatch initialState (handleDate 10)).
Proof.
  split.
  - apply (proj1 date_is_most_recent_payload).
    + repeat constructor; unfold wellTyped; cbn; discriminate.
    + reflexivity.
  - apply (proj1 (proj2 date_is_most_recent_payload)). reflexivity.
Defined.

(** C5. For every state of the store and every action whose type is neither
    ['ADD'] nor ['DATE'], dispatching the action changes nothing: the root
    reducer returns the state it was given, so the counter slot and the date
    slot both keep their values. *)
Theorem unrecognized_action_is_identity (s : RootState) (a : Action) :
  type a <> ADD -> type a <> DATE ->
  rootReducer (Some s) a = Js.Ok s
  /\ dispatch s a = s
  /\ counter (dispatch s a) = counter s
  /\ dates (dispatch s a) = dates s.
Proof.
  intros HA HD.
  assert (E : dispatch s a = s).
  { rewrite dispatch_slots, (counterReducer_default_branch _ a HA),
      (dates_after_default_branch _ a HD). now destruct s. }
  split; [|rewrite E; now repeat split].
  unfold rootReducer. cbn [option_map].
  rewrite (counterReducer_default_branch _ a HA),
    (dateReducer_default_branch _ a HD).
  now destruct s.
Qed.

Lemma unrecognized_action_is_identity_witness :
  dispatch (dispatch initialState handleIncrement) INIT
  = dispatch initialState handleIncrement.
Proof.
  apply (unrecognized_action_is_identity
           (dispatch initialState handleIncrement) INIT);
    discriminate.
Defined.

(** C6. The counter slot's count is a non-negative integer in every state the
    store can reach: it starts at zero, every dispatched action either adds
    one to it or leaves the counter slot as it was, so [0 <= count] is kept
    by every step and holds in every reachable state. *)
Theorem count_nonnegative_invariant :
  count (counter initialState) = 0
  /\ (forall (s : RootState) (a : Action),
        count (counter (dispatch s a)) = count (counter s) + 1
        \/ counter (dispatch s a) = counter s)
  /\ (forall (s : RootState) (a : Action),
        0 <= count (counter s) -> 0 <= count (counter (dispatch s a)))
  /\ (forall s : RootState, reachable s -> 0 <= count (counter s)).
Proof.
  assert (Hstep : forall s a,
             count (counter (dispatch s a)) = count (counter s) + 1
             \/ counter (dispatch s a) = counter s).
  { intros s a. rewrite counter_dispatch.
    destruct (String.eqb (type a) ADD) eqn:E.
    - left. apply String.eqb_eq in E.
      now rewrite (counterReducer_ADD _ a E).
    - right. apply String.eqb_neq in E.
      now apply counterReducer_default_branch. }
  assert (Hpres : forall s a,
             0 <= count (counter s) -> 0 <= count (counter (dispatch s a))).
  { intros s a H. destruct (Hstep s a) as [E|E]; rewrite E; lia. }
  split; [reflexivity|]. split; [exact Hstep|]. split; [exact Hpres|].
  intros s H. induction H as [|s a _ IH].
  - cbn. lia.
  - now apply Hpres.
Qed.

Lemma count_nonnegative_invariant_witness :
  0 <= count (counter (dispatch (dispatch initialState handleIncrement)
                         (handleDate 3))).
Proof.
  apply (proj2 (proj2 (proj2 count_nonnegative_invariant))).
  apply reachable_dispatch, reachable_dispatch, reachable_init.
Defined.

(** C7. [mapStateToPropsBreaking] returns the empty object for every input
    state: the result has no property and is the same whatever the state. *)
Theorem mapStateToPropsBreaking_empty :
  (forall state : Js.value, mapStateToPropsBreaking state = Js.Object [])
  /\ (forall state : Js.value, Js.keys (mapStateToPropsBreaking state) = [])
  /\ (forall state1 state2 : Js.value,
        mapStateToPropsBreaking state1 = mapStateToPropsBreaking state2).
Proof. now repeat split. Qed.

(** C8, as the claim words it, fails: the value selected from the state the
    store is created with is not that state. *)
Lemma mapStateToPropsNonBlocking2_not_state_itself :
  mapStateToPropsNonBlocking2 (js_of_RootState initialState)
  <> js_of_RootState initialState.
Proof. discriminate. Qed.

(** C8, amended. For every global state [s], [mapStateToPropsNonBlocking2]
    returns an object with exactly one property, [state], whose value is [s]
    itself, the whole state unmodified; the object is never [s]. *)
Theorem mapStateToPropsNonBlocking2_wraps_state (s : Js.value) :
  mapStateToPropsNonBlocking2 s = Js.Object [("state", s)]
  /\ Js.keys (mapStateToPropsNonBlocking2 s) = ["state"]
  /\ Js.get (mapStateToPropsNonBlocking2 s) "state" = Some s
  /\ mapStateToPropsNonBlocking2 s <> s.
Proof.
  repeat split.
  intros E. pose proof (value_lt_Object "state" s) as H.
  unfold mapStateToPropsNonBlocking2 in E. rewrite E in H. lia.
Qed.

(** C9. For every state of the store, dispatching a ['DATE'] action leaves
    the counter slot as it was: [counterReducer] returns its input state on
    that action type. *)
Theorem date_action_keeps_counter (s : RootState) (a : Action) :
  type a = DATE ->
  counterReducer (Some (counter s)) a = counter s
  /\ counter (dispatch s a) = counter s.
Proof.
  intros H.
  assert (E : counterReducer (Some (counter s)) a = counter s).
  { apply counterReducer_default_branch. rewrite H.
    intros E. now apply ADD_neq_DATE. }
  now rewrite counter_dispatch.
Qed.

Lemma date_action_keeps_counter_witness :
  counter (dispatch (dispatch initialState handleIncrement) (handleDate 5))
  = counter (dispatch initialState handleIncrement).
Proof.
  apply (date_action_keeps_counter
           (dispatch initialState handleIncrement) (handleDate 5)).
  reflexivity.
Defined.

(** C10. An ['ADD'] action and a ['DATE'] action commute: from every state
    of the store, dispatching the one then the other gives the same state as
    dispatching them in the other order. *)
Theorem add_and_date_commute (s : RootState) (a d : Action) :
  type a = ADD -> type d = DATE ->
  dispatch (dispatch s a) d = dispatch (dispatch s d) a
  /\ dispatchAll s [a; d] = dispatchAll s [d; a].
Proof.
  intros Ha Hd.
  assert (E : dispatch (dispatch s a) d = dispatch (dispatch s d) a).
  { rewrite !dispatch_slots. cbn [counter dates].
    assert (HaD : type a <> DATE) by (rewrite Ha; apply ADD_neq_DATE).
    assert (HdA : type d <> ADD)
      by (rewrite Hd; intros E; now apply ADD_neq_DATE).
    rewrite !(dates_after_default_branch _ a HaD).
    now rewrite !(counterReducer_default_branch _ d HdA). }
  split; [exact E|exact E].
Qed.

Lemma add_and_date_commute_witness :
  dispatch (dispatch initialState handleIncrement) (handleDate 1700000000000)
  = dispatch (dispatch initialState (handleDate 1700000000000)) handleIncrement.
Proof.
  apply (add_and_date_commute initialState handleIncrement
           (handleDate 1700000000000)); reflexivity.
Defined.

(** * Further properties of the code *)

(** ** The slots under one action *)

Lemma setsDate_true (a : Action) :
  setsDate a = true <-> type a = DATE /\ exists p, payload a = Some p.
Proof.
  unfold setsDate, isDateAction. rewrite andb_true_iff, String.eqb_eq.
  destruct (payload a) as [p|]; split.
  - intros [H _]. split; [exact H|now exists p].
  - intros [H _]. now split.
  - intros [_ H]. discriminate.
  - intros [_ [p H]]. discriminate.
Qed.

Lemma setsDate_false (a : Action) :
  setsDate a = false <-> type a <> DATE \/ payload a = None.
Proof.
  unfold setsDate, isDateAction. rewrite andb_false_iff, String.eqb_neq.
  destruct (payload a) as [p|]; split; intros [H|H];
    solve [now left | now right | discriminate].
Qed.

Lemma dates_after_not_setsDate (ds : DateState) (a : Action) :
  setsDate a = false -> dates_after ds a = ds.
Proof.
  intros H. apply setsDate_false in H.
  destruct (String.eqb (type a) DATE) eqn:E.
  - apply String.eqb_eq in E. destruct H as [H|H]; [contradiction|].
    unfold dates_after. now rewrite (dateReducer_DATE_no_payload ds a E H).
  - apply String.eqb_neq in E. now apply dates_after_default_branch.
Qed.

Lemma dates_after_setsDate (ds : DateState) (a : Action) :
  setsDate a = true ->
  exists p, payload a = Some p
            /\ dates_after ds a = {| date := Some (Payload.date p) |}.
Proof.
  intros H. apply setsDate_true in H as [Ht [p Hp]].
  exists p. split; [exact Hp|]. now apply dates_after_DATE.
Qed.

Lemma counter_after_commute (c : CounterState) (a b : Action) :
  counter_after (counter_after c a) b = counter_after (counter_after c b) a.
Proof.
  unfold counter_after, counterReducer. cbn [or_default].
  destruct (String.eqb (type a) ADD), (String.eqb (type b) ADD); reflexivity.
Qed.

Lemma dispatch_counter_after (s : RootState) (a : Action) :
  dispatch s a =
  {| counter := counter_after (counter s) a;
     dates := dates_after (dates s) a |}.
Proof. apply dispatch_slots. Qed.

(** ** Exceptions *)

Lemma dateReducer_TypeError_iff (st : option DateState) (a : Action) :
  dateReducer st a = Js.Throw Js.TypeError
  <-> type a = DATE /\ payload a = None.
Proof.
  unfold dateReducer, action_payload_date.
  destruct (String.eqb (type a) DATE) eqn:E;
    [apply String.eqb_eq in E | apply String.eqb_neq in E];
    destruct (payload a) as [p|]; cbn; split;
    solve [discriminate | intros [_ H]; discriminate
          | intros [H _]; contradiction | now split].
Qed.

(** X1. [dateReducer] throws exactly on a ['DATE'] action that has no
    payload, whatever the state (an absent one included); the exception is a
    [TypeError], and on every other action a state is returned. *)
Theorem dateReducer_throws_iff (st : option DateState) (a : Action) :
  (dateReducer st a = Js.Throw Js.TypeError
   <-> type a = DATE /\ payload a = None)
  /\ (type a <> DATE \/ payload a <> None ->
      exists ds : DateState, dateReducer st a = Js.Ok ds).
Proof.
  split; [apply dateReducer_TypeError_iff|].
  intros H. destruct (dateReducer st a) as [ds|[]] eqn:E; [now exists ds|].
  apply dateReducer_TypeError_iff in E as [Ht Hp].
  destruct H as [H|H]; contradiction.
Qed.

Lemma dateReducer_throws_iff_witness :
  dateReducer None {| type := DATE; payload := None |} = Js.Throw Js.TypeError
  /\ exists ds : DateState, dateReducer None (handleDate 0) = Js.Ok ds.
Proof.
  split.
  - apply (proj1 (dateReducer_throws_iff None {| type := DATE; payload := None |})).
    split; reflexivity.
  - apply (proj2 (dateReducer_throws_iff None (handleDate 0))).
    right. discriminate.
Defined.

(** X2. A dispatch fails exactly when the action is a ['DATE'] action with
    no payload, and then the store keeps the state it had, counter slot
    included; for a well-typed action the root reducer returns the state
    [dispatch] leaves in the store. *)
Theorem rootReducer_throws_iff (s : RootState) (a : Action) :
  (rootReducer (Some s) a = Js.Throw Js.TypeError
   <-> type a = DATE /\ payload a = None)
  /\ (type a = DATE -> payload a = None -> dispatch s a = s)
  /\ (wellTyped a -> rootReducer (Some s) a = Js.Ok (dispatch s a)).
Proof.
  assert (Hroot : rootReducer (Some s) a = Js.Throw Js.TypeError
                  <-> type a = DATE /\ payload a = None).
  { rewrite <- (dateReducer_TypeError_iff (Some (dates s)) a).
    unfold rootReducer. cbn [option_map].
    destruct (dateReducer (Some (dates s)) a) as [ds|[]]; cbn;
      split; intros H; try discriminate; reflexivity. }
  split; [exact Hroot|]. split.
  - intros Ht Hp. unfold dispatch.
    now rewrite (proj2 Hroot (conj Ht Hp)).
  - intros Hwt. unfold dispatch.
    destruct (rootReducer (Some s) a) as [s'|[]] eqn:E; [reflexivity|].
    destruct (proj1 Hroot eq_refl) as [Ht Hp]. now elim (Hwt Ht).
Qed.

Lemma rootReducer_throws_iff_witness :
  dispatch (dispatch initialState handleIncrement)
    {| type := DATE; payload := None |}
  = dispatch initialState handleIncrement
  /\ rootReducer (Some initialState) (handleDate 12)
     = Js.Ok (dispatch initialState (handleDate 12)).
Proof.
  split.
  - apply (proj1 (proj2 (rootReducer_throws_iff
                           (dispatch initialState handleIncrement)
                           {| type := DATE; payload := None |})));
      reflexivity.
  - apply (proj2 (proj2 (rootReducer_throws_iff initialState (handleDate 12)))).
    unfold wellTyped. cbn. discriminate.
Defined.

(** X3. Given [undefined] as state, each reducer starts from its default:
    on an action of a type it does not handle it returns [{count: 0}], resp.
    [{date: null}]; [counterReducer] on ['ADD'] returns [{count: 1}]; and the
    root reducer creates the same initial state from any action whose type is
    neither ['ADD'] nor ['DATE']. *)
Theorem reducers_on_undefined_state (a : Action) :
  (type a <> ADD -> counterReducer None a = {| count := 0 |})
  /\ (type a = ADD -> counterReducer None a = {| count := 1 |})
  /\ (type a <> DATE -> dateReducer None a = Js.Ok {| date := None |})
  /\ (type a <> ADD -> type a <> DATE ->
      rootReducer None a = Js.Ok initialState).
Proof.
  unfold rootReducer, counterReducer, dateReducer. cbn [option_map or_default].
  repeat split.
  - intros H. apply String.eqb_neq in H. now rewrite H.
  - intros H. now rewrite (type_ADD_eqb a H).
  - intros H. apply String.eqb_neq in H. now rewrite H.
  - intros HA HD. apply String.eqb_neq in HA, HD. now rewrite HA, HD.
Qed.

Lemma reducers_on_undefined_state_witness :
  counterReducer None handleIncrement = {| count := 1 |}
  /\ rootReducer None {| type := "@@redux/INITa.b.c"; payload := None |}
     = Js.Ok initialState.
Proof.
  split.
  - apply (proj1 (proj2 (reducers_on_undefined_state handleIncrement))).
    reflexivity.
  - apply (proj2 (proj2 (proj2 (reducers_on_undefined_state
             {| type := "@@redux/INITa.b.c"; payload := None |}))));
      discriminate.
Defined.

(** ** How dispatches compose *)

(** X4. The date slot is overwritten wholesale: a ['DATE'] action that
    carries a payload erases the effect of any earlier action that is not an
    ['ADD'] (an earlier ['DATE'] among them), and dispatching it twice is the
    same as dispatching it once. *)
Theorem date_last_write_wins (s : RootState) (a1 a2 : Action) (p : Payload.t) :
  type a1 <> ADD -> type a2 = DATE -> payload a2 = Some p ->
  dispatch (dispatch s a1) a2 = dispatch s a2
  /\ dispatch (dispatch s a2) a2 = dispatch s a2.
Proof.
  intros H1 H2 Hp.
  assert (H2A : type a2 <> ADD)
    by (rewrite H2; intros E; now apply ADD_neq_DATE).
  rewrite !dispatch_slots. cbn [counter dates].
  rewrite !(dates_after_DATE _ a2 p H2 Hp).
  rewrite (counterReducer_default_branch _ a1 H1).
  now rewrite !(counterReducer_default_branch _ a2 H2A).
Qed.

Lemma date_last_write_wins_witness :
  dispatch (dispatch initialState (handleDate 1)) (handleDate 2)
  = dispatch initialState (handleDate 2).
Proof.
  apply (date_last_write_wins initialState (handleDate 1) (handleDate 2)
           (Payload.mk 2)).
  - discriminate.
  - reflexivity.
  - reflexivity.
Defined.

(** X5. Two dispatches commute unless both actions set the date: from every
    state, whenever at most one of the two actions is a ['DATE'] action with
    a payload, either order gives the same state.  Two ['DATE'] actions with
    payloads commute exactly when their payload dates are equal. *)
Theorem dispatch_commute_unless_both_set_date (s : RootState) (a b : Action) :
  (setsDate a && setsDate b = false ->
   dispatch (dispatch s a) b = dispatch (dispatch s b) a)
  /\ (forall pa pb : Payload.t,
        type a = DATE -> payload a = Some pa ->
        type b = DATE -> payload b = Some pb ->
        (dispatch (dispatch s a) b = dispatch (dispatch s b) a
         <-> Payload.date pa = Payload.date pb)).
Proof.
  split.
  - intros H. rewrite !dispatch_counter_after. cbn [counter dates].
    rewrite (counter_after_commute (counter s) a b). f_equal.
    apply andb_false_iff in H as [H|H].
    + now rewrite !(dates_after_not_setsDate _ a H).
    + now rewrite !(dates_after_not_setsDate _ b H).
  - intros pa pb Ha Hpa Hb Hpb.
    rewrite !dispatch_counter_after. cbn [counter dates].
    rewrite (counter_after_commute (counter s) a b).
    rewrite !(dates_after_DATE _ a pa Ha Hpa), !(dates_after_DATE _ b pb Hb Hpb).
    split.
    + intros E. injection E as E. now symmetry.
    + intros E. now rewrite E.
Qed.

Lemma dispatch_commute_unless_both_set_date_witness :
  dispatch (dispatch initialState (handleDate 3)) INIT
  = dispatch (dispatch initialState INIT) (handleDate 3)
  /\ (dispatch (dispatch initialState (handleDate 1)) (handleDate 2)
      = dispatch (dispatch initialState (handleDate 2)) (handleDate 1)
      <-> 1 = 2).
Proof.
  split.
  - apply (proj1 (dispatch_commute_unless_both_set_date
                    initialState (handleDate 3) INIT)).
    reflexivity.
  - apply (proj2 (dispatch_commute_unless_both_set_date
                    initialState (handleDate 1) (handleDate 2))
             (Payload.mk 1) (Payload.mk 2)); reflexivity.
Defined.

(** ** The slots along a sequence *)

Lemma dispatchAll_cons (s : RootState) (a : Action) (l : list Action) :
  dispatchAll s (a :: l) = dispatchAll (dispatch s a) l.
Proof. reflexivity. Qed.

Lemma dispatchAll_slots (l : list Action) (s : RootState) :
  dispatchAll s l =
  {| counter := fold_left counter_after l (counter s);
     dates := fold_left dates_after l (dates s) |}.
Proof.
  revert s. induction l as [|a l IH]; intros s.
  - now destruct s.
  - rewrite dispatchAll_cons, IH, dispatch_counter_after. reflexivity.
Qed.

(** X6. The two slots never influence each other: after any sequence of
    dispatches the counter slot is the fold of [counterReducer] over the
    sequence from the old counter slot, and the date slot the fold of
    [dateReducer] from the old date slot; so two stores that agree on a slot
    still agree on it after the same actions, whatever their other slot. *)
Theorem slots_are_independent (l : list Action) (s s' : RootState) :
  dispatchAll s l =
    {| counter := fold_left counter_after l (counter s);
       dates := fold_left dates_after l (dates s) |}
  /\ (counter s = counter s' ->
      counter (dispatchAll s l) = counter (dispatchAll s' l))
  /\ (dates s = dates s' ->
      dates (dispatchAll s l) = dates (dispatchAll s' l)).
Proof.
  split; [apply dispatchAll_slots|].
  rewrite !dispatchAll_slots. cbn [counter dates].
  split; intros ->; reflexivity.
Qed.

Lemma slots_are_independent_witness :
  counter (dispatchAll initialState [handleIncrement; handleDate 4])
  = counter (dispatchAll (dispatch initialState (handleDate 8))
               [handleIncrement; handleDate 4]).
Proof.
  apply (proj1 (proj2 (slots_are_independent
                         [handleIncrement; handleDate 4] initialState
                         (dispatch initialState (handleDate 8))))).
  reflexivity.
Defined.

(** X7. The count never decreases and grows by at most one per dispatched
    action: after a sequence of [n] actions it lies between the old count
    and the old count plus [n]. *)
Theorem count_monotone_and_bounded (l : list Action) (s : RootState) :
  count (counter s) <= count (counter (dispatchAll s l))
  /\ count (counter (dispatchAll s l))
     <= count (counter s) + Z.of_nat (length l).
Proof.
  rewrite count_dispatchAll. unfold countAdds.
  pose proof (filter_length_le isAddAction l). lia.
Qed.

Lemma dates_after_keeps_non_null (ds : DateState) (a : Action) :
  date ds <> None -> date (dates_after ds a) <> None.
Proof.
  intros H. destruct (setsDate a) eqn:E.
  - destruct (dates_after_setsDate ds a E) as (p & _ & ->). discriminate.
  - now rewrite (dates_after_not_setsDate ds a E).
Qed.

Lemma fold_dates_after_keeps_non_null (l : list Action) (ds : DateState) :
  date ds <> None -> date (fold_left dates_after l ds) <> None.
Proof.
  revert ds. induction l as [|a l IH]; intros ds H; [exact H|].
  cbn [fold_left]. now apply IH, dates_after_keeps_non_null.
Qed.

Lemma fold_dates_after_no_setsDate (l : list Action) (ds : DateState) :
  existsb setsDate l = false -> fold_left dates_after l ds = ds.
Proof.
  revert ds. induction l as [|a l IH]; intros ds H; [reflexivity|].
  cbn [existsb] in H. apply orb_false_iff in H as [Ha Hl].
  cbn [fold_left]. now rewrite (dates_after_not_setsDate ds a Ha), IH.
Qed.

(** X8. Once the date slot holds a date it never goes back to [null]: no
    sequence of dispatches resets it.  From the initial state, the date slot
    is [null] after a sequence exactly when the sequence has no ['DATE']
    action with a payload; a sequence without one leaves the date slot of
    any state as it was. *)
Theorem date_slot_null_iff (l : list Action) (s : RootState) :
  (date (dates s) <> None -> date (dates (dispatchAll s l)) <> None)
  /\ (existsb setsDate l = false -> dates (dispatchAll s l) = dates s)
  /\ (date (dates (dispatchAll initialState l)) = None
      <-> existsb setsDate l = false).
Proof.
  rewrite !dispatchAll_slots. cbn [dates].
  split; [apply fold_dates_after_keeps_non_null|].
  split; [apply fold_dates_after_no_setsDate|].
  split.
  - intros H. destruct (existsb setsDate l) eqn:E; [exfalso|reflexivity].
    revert H. generalize (dates initialState).
    induction l as [|a l IH]; intros ds H; [discriminate|].
    cbn [existsb] in E. cbn [fold_left] in H.
    destruct (setsDate a) eqn:Ea.
    + destruct (dates_after_setsDate ds a Ea) as (p & _ & Hd).
      rewrite Hd in H.
      now apply (fold_dates_after_keeps_non_null l
                   {| date := Some (Payload.date p) |}).
    + now apply (IH E (dates_after ds a)).
  - intros H. now rewrite fold_dates_after_no_setsDate.
Qed.

Lemma date_slot_null_iff_witness :
  date (dates (dispatchAll (dispatch initialState (handleDate 6))
                 [handleIncrement; INIT; handleIncrement])) <> None
  /\ dates (dispatchAll initialState [handleIncrement; INIT])
     = dates initialState.
Proof.
  split.
  - apply (proj1 (date_slot_null_iff [handleIncrement; INIT; handleIncrement]
                    (dispatch initialState (handleDate 6)))).
    discriminate.
  - apply (proj1 (proj2 (date_slot_null_iff [handleIncrement; INIT]
                           initialState))).
    reflexivity.
Defined.

(** X9. The date slot never holds a value that was not dispatched: after any
    sequence of dispatches its content is either what it was before or the
    payload date of a ['DATE'] action of the sequence. *)
Theorem date_slot_provenance (l : list Action) (s : RootState) :
  dates (dispatchAll s l) = dates s
  \/ exists (a : Action) (p : Payload.t),
       In a l /\ type a = DATE /\ payload a = Some p
       /\ date (dates (dispatchAll s l)) = Some (Payload.date p).
Proof.
  induction l as [|a l IH] using rev_ind; [now left|].
  rewrite dispatchAll_snoc, dates_dispatch.
  destruct (setsDate a) eqn:E.
  - right. destruct (dates_after_setsDate (dates (dispatchAll s l)) a E)
      as (p & Hp & Hd).
    apply setsDate_true in E as [Ht _].
    exists a, p. rewrite Hd. repeat split; try assumption.
    apply in_or_app. right. now left.
  - rewrite (dates_after_not_setsDate _ a E).
    destruct IH as [IH|(a' & p & Hin & Ht & Hp & Hd)]; [now left|right].
    exists a', p. repeat split; try assumption.
    apply in_or_app. now left.
Qed.

(** ** Selections *)

Lemma js_of_RootState_inj (s1 s2 : RootState) :
  js_of_RootState s1 = js_of_RootState s2 -> s1 = s2.
Proof.
  destruct s1 as [[c1] [d1]], s2 as [[c2] [d2]].
  unfold js_of_RootState, js_of_CounterState, js_of_DateState. cbn.
  intros H. injection H as Hc Hd. subst c2.
  destruct d1 as [d1|], d2 as [d2|]; try discriminate.
  - injection Hd as ->. reflexivity.
  - reflexivity.
Qed.

Lemma dispatch_handleDate (s : RootState) (now : Z) :
  dispatch s (handleDate now)
  = {| counter := counter s; dates := {| date := Some now |} |}.
Proof. reflexivity. Qed.

Lemma dispatch_handleIncrement (s : RootState) :
  dispatch s handleIncrement
  = {| counter := {| count := count (counter s) + 1 |}; dates := dates s |}.
Proof. reflexivity. Qed.

Lemma mapStateToProps_inj (s1 s2 : RootState) :
  mapStateToProps s1 = mapStateToProps s2 -> s1 = s2.
Proof.
  destruct s1 as [[c1] [d1]], s2 as [[c2] [d2]]. unfold mapStateToProps. cbn.
  intros E. injection E as -> ->. reflexivity.
Qed.

Lemma mapStateToPropsNonBlocking2_inj (v1 v2 : Js.value) :
  mapStateToPropsNonBlocking2 v1 = mapStateToPropsNonBlocking2 v2 -> v1 = v2.
Proof.
  unfold mapStateToPropsNonBlocking2. intros E. injection E as E. exact E.
Qed.

(** X10. [mapStateToProps] loses nothing of the state: two states of the
    store give the same props exactly when they are the same state, so the
    props of [Counter] change under a dispatch exactly when the state
    does. *)
Theorem mapStateToProps_reflects_state (s1 s2 : RootState) :
  (mapStateToProps s1 = mapStateToProps s2 <-> s1 = s2)
  /\ (forall a : Action,
        mapStateToProps (dispatch s1 a) = mapStateToProps s1
        <-> dispatch s1 a = s1).
Proof.
  split; [|intros a]; (split; [apply mapStateToProps_inj|now intros ->]).
Qed.

(** X11. [mapStateToPropsNonBlocking1] sees the counter slot only: states
    with the same counter slot give the same props, a dispatch of any action
    that is not an ['ADD'] (a ['DATE'] among them) and any sequence of such
    actions leave the props as they were, and an ['ADD'] raises the selected
    count by one. *)
Theorem mapStateToPropsNonBlocking1_sees_counter_only (s : RootState) :
  (forall s' : RootState,
     counter s = counter s' ->
     mapStateToPropsNonBlocking1 s = mapStateToPropsNonBlocking1 s')
  /\ (forall a : Action,
        type a <> ADD ->
        mapStateToPropsNonBlocking1 (dispatch s a)
        = mapStateToPropsNonBlocking1 s)
  /\ (forall l : list Action,
        existsb isAddAction l = false ->
        mapStateToPropsNonBlocking1 (dispatchAll s l)
        = mapStateToPropsNonBlocking1 s)
  /\ (forall a : Action,
        type a = ADD ->
        CountProps.count (mapStateToPropsNonBlocking1 (dispatch s a))
        = CountProps.count (mapStateToPropsNonBlocking1 s) + 1).
Proof.
  unfold mapStateToPropsNonBlocking1. repeat split.
  - intros s' H. now rewrite H.
  - intros a H.
    now rewrite counter_dispatch, (counterReducer_default_branch _ a H).
  - intros l H. rewrite count_dispatchAll. unfold countAdds.
    replace (filter isAddAction l) with (@nil Action).
    + cbn. f_equal. lia.
    + symmetry. induction l as [|a l IH]; [reflexivity|].
      cbn [existsb] in H. apply orb_false_iff in H as [Ha Hl].
      cbn [filter]. rewrite Ha. now apply IH.
  - intros a H. cbn.
    now rewrite counter_dispatch, (counterReducer_ADD _ a H).
Qed.

Lemma mapStateToPropsNonBlocking1_sees_counter_only_witness :
  mapStateToPropsNonBlocking1 (dispatch initialState (handleDate 5))
  = mapStateToPropsNonBlocking1 initialState
  /\ CountProps.count
       (mapStateToPropsNonBlocking1 (dispatch initialState handleIncrement))
     = CountProps.count (mapStateToPropsNonBlocking1 initialState) + 1.
Proof.
  split.
  - apply (proj1 (proj2 (mapStateToPropsNonBlocking1_sees_counter_only
                           initialState))).
    discriminate.
  - apply (proj2 (proj2 (proj2 (mapStateToPropsNonBlocking1_sees_counter_only
                                  initialState)))).
    reflexivity.
Defined.

(** X12. [mapStateToPropsNonBlocking2] loses nothing: two values give the
    same props exactly when they are the same value, so on the state of the
    store its props change under a dispatch exactly when the state does. *)
Theorem mapStateToPropsNonBlocking2_reflects_state :
  (forall v1 v2 : Js.value,
     mapStateToPropsNonBlocking2 v1 = mapStateToPropsNonBlocking2 v2
     <-> v1 = v2)
  /\ (forall (s : RootState) (a : Action),
        mapStateToPropsNonBlocking2 (js_of_RootState (dispatch s a))
        = mapStateToPropsNonBlocking2 (js_of_RootState s)
        <-> dispatch s a = s).
Proof.
  split.
  - intros v1 v2. split; [apply mapStateToPropsNonBlocking2_inj|now intros ->].
  - intros s a. split.
    + intros E. now apply js_of_RootState_inj, mapStateToPropsNonBlocking2_inj.
    + now intros ->.
Qed.

(** X13. What each selection function sees of an "Update Date" dispatch
    whose clock value differs from the stored date: the props selected by
    [mapStateToProps] and by [mapStateToPropsNonBlocking2] change, those
    selected by [mapStateToPropsBreaking] and by
    [mapStateToPropsNonBlocking1] do not. *)
Theorem selections_on_date_update (s : RootState) (now : Z) :
  date (dates s) <> Some now ->
  mapStateToProps (dispatch s (handleDate now)) <> mapStateToProps s
  /\ mapStateToPropsNonBlocking2 (js_of_RootState (dispatch s (handleDate now)))
     <> mapStateToPropsNonBlocking2 (js_of_RootState s)
  /\ mapStateToPropsBreaking (js_of_RootState (dispatch s (handleDate now)))
     = mapStateToPropsBreaking (js_of_RootState s)
  /\ mapStateToPropsNonBlocking1 (dispatch s (handleDate now))
     = mapStateToPropsNonBlocking1 s.
Proof.
  intros H. rewrite dispatch_handleDate.
  assert (Hs : {| counter := counter s; dates := {| date := Some now |} |}
               <> s).
  { intros E. apply H. rewrite <- E. reflexivity. }
  repeat split.
  - intros E. apply Hs. now apply mapStateToProps_inj.
  - intros E. apply Hs.
    now apply js_of_RootState_inj, mapStateToPropsNonBlocking2_inj.
Qed.

Lemma selections_on_date_update_witness :
  mapStateToProps (dispatch initialState (handleDate 1700000000000))
  <> mapStateToProps initialState
  /\ mapStateToPropsNonBlocking1 (dispatch initialState (handleDate 1700000000000))
     = mapStateToPropsNonBlocking1 initialState.
Proof.
  pose proof (selections_on_date_update initialState 1700000000000) as H.
  split; apply H; discriminate.
Defined.

(** X14. What each selection function sees of an "Increment Counter"
    dispatch: the props selected by [mapStateToProps],
    [mapStateToPropsNonBlocking1] and [mapStateToPropsNonBlocking2] change,
    those selected by [mapStateToPropsBreaking] do not. *)
Theorem selections_on_increment (s : RootState) :
  mapStateToProps (dispatch s handleIncrement) <> mapStateToProps s
  /\ mapStateToPropsNonBlocking1 (dispatch s handleIncrement)
     <> mapStateToPropsNonBlocking1 s
  /\ mapStateToPropsNonBlocking2 (js_of_RootState (dispatch s handleIncrement))
     <> mapStateToPropsNonBlocking2 (js_of_RootState s)
  /\ mapStateToPropsBreaking (js_of_RootState (dispatch s handleIncrement))
     = mapStateToPropsBreaking (js_of_RootState s).
Proof.
  rewrite dispatch_handleIncrement.
  unfold mapStateToProps, mapStateToPropsNonBlocking1,
    mapStateToPropsNonBlocking2, js_of_RootState, js_of_CounterState.
  cbn [counter dates count]. repeat split.
  - intros E. injection E as E. lia.
  - intros E. injection E as E. lia.
  - intros E. injection E as E. lia.
Qed.

(** ** The buttons *)

Lemma onPress_UpdateDate (s : RootState) (now : Z) :
  onPress Buttons_props (UpdateDate now) s
  = {| counter := counter s; dates := {| date := Some now |} |}.
Proof. reflexivity. Qed.

Lemma onPress_IncrementCounter (s : RootState) :
  onPress Buttons_props IncrementCounter s
  = {| counter := {| count := count (counter s) + 1 |}; dates := dates s |}.
Proof. reflexivity. Qed.

Lemma incrementPresses_cons (e : Press) (es : list Press) :
  incrementPresses (e :: es)
  = (if isIncrement e then 1 else 0) + incrementPresses es.
Proof.
  unfold incrementPresses. cbn [filter].
  destruct (isIncrement e); cbn [length]; lia.
Qed.

(** The state after a sequence of presses, from any state. *)
Lemma pressAll_from (es : list Press) (s : RootState) :
  pressAll s es =
  {| counter := {| count := count (counter s) + incrementPresses es |};
     dates := {| date := fold_left (fun acc e => match e with
                                               | UpdateDate now => Some now
                                               | IncrementCounter => acc
                                               end) es (date (dates s)) |} |}.
Proof.
  revert s. induction es as [|e es IH]; intros s.
  - destruct s as [[c] [d]]. cbn. unfold incrementPresses. cbn.
    now rewrite Z.add_0_r.
  - change (pressAll s (e :: es))
      with (pressAll (onPress Buttons_props e s) es).
    rewrite IH, incrementPresses_cons. destruct e as [now|].
    + rewrite onPress_UpdateDate.
      cbn [counter dates count date fold_left isIncrement].
      replace (0 + incrementPresses es) with (incrementPresses es) by lia.
      reflexivity.
    + rewrite onPress_IncrementCounter.
      cbn [counter dates count date fold_left isIncrement].
      replace (count (counter s) + 1 + incrementPresses es)
        with (count (counter s) + (1 + incrementPresses es)) by lia.
      reflexivity.
Qed.

(** X15. No press of a button can make a reducer throw: the action each
    handler of [ButtonsRaw] dispatches is reduced to the state the handler
    leaves in the store.  After any sequence of presses from the initial
    state the count is the number of "Increment Counter" presses and the
    date is the clock value of the most recent "Update Date" press, [null]
    when there was none; these are the props [mapStateToProps] gives
    [Counter]. *)
Theorem buttons_drive_the_store :
  (forall s : RootState,
     rootReducer (Some s) {| type := ADD; payload := None |}
     = Js.Ok (ButtonsRaw.handleIncrement Buttons_props s))
  /\ (forall (s : RootState) (now : Z),
        rootReducer (Some s)
          {| type := DATE; payload := Some (Payload.mk now) |}
        = Js.Ok (ButtonsRaw.handleDate Buttons_props now s))
  /\ (forall presses : list Press,
        pressAll initialState presses
        = {| counter := {| count := incrementPresses presses |};
             dates := {| date := lastUpdateDate presses |} |})
  /\ (forall presses : list Press,
        mapStateToProps (pressAll initialState presses)
        = {| StateProps.count := incrementPresses presses;
             StateProps.date := lastUpdateDate presses |}).
Proof.
  split; [reflexivity|]. split; [reflexivity|].
  split; intros presses; rewrite pressAll_from; reflexivity.
Qed.

(** ** The store with the addition of doubles *)

Lemma dispatch_double_slots (s : RootState) (a : Action) :
  dispatch_double s a =
  {| counter := counterReducer_double (Some (counter s)) a;
     dates := dates_after (dates s) a |}.
Proof.
  unfold dispatch_double, rootReducer_double, dates_after. cbn [option_map].
  destruct (dateReducer (Some (dates s)) a) as [ds'|e] eqn:E; cbn.
  - reflexivity.
  - apply dateReducer_Throw_DATE in E.
    rewrite counterReducer_double_default_branch.
    + now destruct s.
    + rewrite E. intros H. now apply ADD_neq_DATE.
Qed.

Lemma dispatch_double_agrees (s : RootState) (a : Action) :
  - 2 ^ 53 <= count (counter s) ->
  count (counter s) + (if isAddAction a then 1 else 0) <= 2 ^ 53 ->
  dispatch_double s a = dispatch s a.
Proof.
  intros Hlo Hhi. rewrite dispatch_double_slots, dispatch_slots. f_equal.
  unfold isAddAction in Hhi.
  destruct (String.eqb (type a) ADD) eqn:E.
  - apply counterReducer_double_agrees. lia.
  - apply String.eqb_neq in E.
    now rewrite counterReducer_double_default_branch,
      counterReducer_default_branch.
Qed.

Lemma dispatchAll_double_agrees (l : list Action) (s : RootState) :
  - 2 ^ 53 <= count (counter s) ->
  count (counter s) + countAdds l <= 2 ^ 53 ->
  dispatchAll_double s l = dispatchAll s l.
Proof.
  revert s. induction l as [|a l IH]; intros s Hlo Hhi; [reflexivity|].
  rewrite countAdds_cons in Hhi.
  assert (H0 : 0 <= countAdds l) by (unfold countAdds; lia).
  assert (Ha : 0 <= (if isAddAction a then 1 else 0))
    by (destruct (isAddAction a); lia).
  change (dispatchAll_double s (a :: l))
    with (dispatchAll_double (dispatch_double s a) l).
  rewrite dispatchAll_cons, dispatch_double_agrees by lia.
  apply IH; rewrite counter_dispatch, count_counterReducer; lia.
Qed.

(** The count stays at 2^53 once it is there. *)
Lemma count_dispatchAll_double_stuck (l : list Action) (s : RootState) :
  count (counter s) = 2 ^ 53 ->
  count (counter (dispatchAll_double s l)) = 2 ^ 53.
Proof.
  revert s. induction l as [|a l IH]; intros s H; [exact H|].
  change (dispatchAll_double s (a :: l))
    with (dispatchAll_double (dispatch_double s a) l).
  apply IH. rewrite dispatch_double_slots. cbn [counter].
  unfold counterReducer_double. cbn [or_default].
  destruct (String.eqb (type a) ADD); [|exact H].
  cbn [with_count count]. rewrite H. reflexivity.
Qed.

Lemma count_dispatchAll_double (l : list Action) (s : RootState) :
  0 <= count (counter s) <= 2 ^ 53 ->
  count (counter (dispatchAll_double s l))
  = Z.min (count (counter s) + countAdds l) (2 ^ 53).
Proof.
  revert s. induction l as [|a l IH]; intros s H.
  - cbn. unfold countAdds. cbn. lia.
  - assert (H0 : 0 <= countAdds l) by (unfold countAdds; lia).
    rewrite countAdds_cons.
    destruct (Z.eq_dec (count (counter s)) (2 ^ 53)) as [E|E].
    + rewrite (count_dispatchAll_double_stuck (a :: l) s E).
      destruct (isAddAction a); lia.
    + change (dispatchAll_double s (a :: l))
        with (dispatchAll_double (dispatch_double s a) l).
      assert (Hs : dispatch_double s a = dispatch s a).
      { apply dispatch_double_agrees; [lia|].
        destruct (isAddAction a); lia. }
      rewrite IH; rewrite Hs, counter_dispatch, count_counterReducer.
      * destruct (isAddAction a); lia.
      * destruct (isAddAction a); lia.
Qed.

(** X16. With [state.count + 1] as the addition of doubles, the store
    started from the initial state counts the ['ADD'] actions up to 2^53 and
    then stays there: after any sequence of dispatches the count is the
    smaller of the number of ['ADD'] actions and 2^53.  On every sequence
    with at most 2^53 ['ADD'] actions the store is in the very state the
    integer reducer gives. *)
Theorem count_double_saturates (l : list Action) :
  count (counter (dispatchAll_double initialState l))
  = Z.min (countAdds l) (2 ^ 53)
  /\ (countAdds l <= 2 ^ 53 ->
      dispatchAll_double initialState l = dispatchAll initialState l).
Proof.
  split.
  - rewrite count_dispatchAll_double; [reflexivity|cbn; lia].
  - intros H. apply dispatchAll_double_agrees; cbn; lia.
Qed.

Lemma count_double_saturates_witness :
  dispatchAll_double initialState
    [handleIncrement; handleDate 3; handleIncrement]
  = dispatchAll initialState [handleIncrement; handleDate 3; handleIncrement].
Proof.
  apply (proj2 (count_double_saturates
                  [handleIncrement; handleDate 3; handleIncrement])).
  discriminate.
Defined.
